(** * Task registry of the SQL Operations Studio platform

    A shallow embedding of [src/sql/platform/tasks/common/tasks.ts] (the
    [Task] class and the [TaskRegistry] singleton) and of the extension
    manifest of the flat file import extension, with the properties of the
    specification stated and proved over them.

    JavaScript objects that are shared by reference (the [_tasks] array and
    the arrays handed out by [getTasks]) live in an explicit heap; the two
    [Map]s of the registry are [gmap]s keyed by task id; the collaborators of
    the host ([createCSSRule], [MenuRegistry], [CommandsRegistry]) are the
    journals of the calls made to them. *)

From stdpp Require Import gmap strings list fin_maps pretty.

(** ** JavaScript values used by the file *)

(** An optional string in a condition: [undefined] and the empty string are
    falsy, every other string is truthy. *)
Definition truthy (o : option string) : option string :=
  match o with
  | Some s => if decide (s = EmptyString) then None else Some s
  | None => None
  end.

(** [a || b] on an optional string [a] and a string [b]. *)
Definition orElse (a : option string) (b : string) : string :=
  match truthy a with
  | Some s => s
  | None => b
  end.

(** [Array.prototype.indexOf]: the first index holding [x], or [-1]. *)
Fixpoint indexOf (x : string) (l : list string) : Z :=
  match l with
  | [] => (-1)%Z
  | y :: l' =>
      if decide (y = x) then 0%Z
      else let i := indexOf x l' in
           if (0 <=? i)%Z then (i + 1)%Z else (-1)%Z
  end.

(** [Array.prototype.splice(start, deleteCount)] for [0 <= start]: the
    removed elements (the returned, new array) and what is left in the
    receiver, which is changed in place. *)
Definition splice (start deleteCount : nat) (l : list string)
  : list string * list string :=
  (take deleteCount (drop start l),
   take start l ++ drop (start + deleteCount) l).

(** [Array.prototype.slice(start)] for [0 <= start]: the elements of a new
    array. *)
Definition slice (start : nat) (l : list string) : list string :=
  drop start l.

(** ** The heap of string arrays *)

Definition loc := nat.

Record Heap := mkHeap {
  cells : gmap loc (list string);
  next : loc
}.

Definition load (h : Heap) (l : loc) : list string := cells h !!! l.

Definition store (l : loc) (v : list string) (h : Heap) : Heap :=
  {| cells := <[l := v]> (cells h); next := next h |}.

Definition alloc (v : list string) (h : Heap) : loc * Heap :=
  (next h, {| cells := <[next h := v]> (cells h); next := S (next h) |}).

(** ** What the host supplies

    The types and functions that [tasks.ts] imports from the platform and
    whose code is not part of the file: they are parameters of the model. *)
Class Host := {
  (** [ITaskHandler]: a function of an accessor, a profile and arguments. *)
  ITaskHandler : Type;
  (** [ContextKeyExpr] of [vs/platform/contextkey]. *)
  ContextKeyExpr : Type;
  (** [types.TypeConstraint] of [vs/base/common/types]. *)
  TypeConstraint : Type;
  (** [IdGenerator] of [vs/base/common/idGenerator]: its state, its
      constructor from a prefix, and [nextId], which returns an id and
      advances the generator. *)
  IdGenerator : Type;
  newIdGenerator : string -> IdGenerator;
  nextId : IdGenerator -> string * IdGenerator;
  (** [URI.file(path).toString()]. *)
  URI_file_toString : string -> string
}.

Section Tasks.
Context `{host : Host}.

(** ** Interfaces *)

(** [{ dark: string; light?: string; }]. [ITaskOptions] and [Task] declare
    [light] as required; the object is passed on unchanged to [ITask] and
    [ICommandAction], where it is optional. *)
Record IconPath := mkIconPath {
  dark : string;
  light : option string
}.

Record ArgDescription := mkArgDescription {
  arg_name : string;
  arg_description : option string;
  arg_constraint : option TypeConstraint
}.

Record ITaskHandlerDescription := mkITaskHandlerDescription {
  hd_description : string;
  hd_args : list ArgDescription;
  hd_returns : option string
}.

Record ITaskOptions := mkITaskOptions {
  opts_id : string;
  opts_title : string;
  opts_iconPath : IconPath;
  opts_description : option ITaskHandlerDescription;
  opts_iconClass : option string
}.

Record ITask := mkITask {
  itask_id : string;
  itask_handler : ITaskHandler;
  itask_precondition : option ContextKeyExpr;
  itask_description : option ITaskHandlerDescription;
  itask_iconClass : option string;
  itask_iconPath : option IconPath;
  itask_title : option string
}.

(** [ICommandAction] of [vs/platform/actions], with the fields this file
    reads and writes. *)
Record ICommandAction := mkICommandAction {
  ca_iconPath : option IconPath;
  ca_id : string;
  ca_title : string
}.

(** ** The [Task] class

    [runTask] is the abstract method, supplied by the subclass;
    [iconPathDark] is declared and never assigned. *)
Record Task := mkTask {
  task_id : string;
  task_title : string;
  task_iconPathDark : option string;
  task_iconPath : IconPath;
  task__iconClass : option string;
  task__description : option ITaskHandlerDescription;
  task_runTask : ITaskHandler
}.

Definition Task_constructor (runTask : ITaskHandler) (opts : ITaskOptions) : Task :=
  {| task_id := opts_id opts;
     task_title := opts_title opts;
     task_iconPathDark := None;
     task_iconPath := opts_iconPath opts;
     task__iconClass := opts_iconClass opts;
     task__description := opts_description opts;
     task_runTask := runTask |}.

(** The handler is the closure that forwards its three arguments to
    [this.runTask]. *)
Definition toITask (this : Task) : ITask :=
  {| itask_id := task_id this;
     itask_handler := task_runTask this;
     itask_precondition := None;
     itask_description := task__description this;
     itask_iconClass := task__iconClass this;
     itask_iconPath := Some (task_iconPath this);
     itask_title := Some (task_title this) |}.

Definition toCommandAction (this : Task) : ICommandAction :=
  {| ca_iconPath := Some (task_iconPath this);
     ca_id := task_id this;
     ca_title := task_title this |}.

(** ** The state of the program *)

(** One firing of [onTaskRegistered]: the id passed to the listeners, and
    the contents of [_tasks] while they run (what a listener reads through
    [getTasks()]). *)
Record Fired := mkFired {
  fired_id : string;
  fired_tasks : list string
}.

(** The fields of the [TaskRegistry] object. [_tasks] is a reference. *)
Record Registry := mkRegistry {
  _tasks : loc;
  _onTaskRegistered : list Fired;
  taskIdToIconClassNameMap : gmap string string;
  taskIdToCommandActionMap : gmap string ICommandAction
}.

(** A call to [CommandsRegistry]: the two overloads of [registerCommand],
    and [dispose] on the disposable of the [n]-th call. *)
Inductive CommandsCall :=
  | RegisterCommandId (id : string) (handler : option ITaskHandler)
  | RegisterCommand (command : ITask)
  | DisposeCommand (n : nat).

Record World := mkWorld {
  registry : Registry;
  heap : Heap;
  (** [const ids = new IdGenerator('task-icon-')] *)
  ids : IdGenerator;
  (** the calls to [createCSSRule(selector, cssText)], oldest first *)
  cssRules : list (string * string);
  (** the calls to [MenuRegistry.addCommand], oldest first *)
  MenuRegistry_commands : list ICommandAction;
  (** the calls to [CommandsRegistry], oldest first *)
  CommandsRegistry_calls : list CommandsCall
}.

Definition with_registry (r : Registry) (w : World) : World :=
  mkWorld r (heap w) (ids w) (cssRules w) (MenuRegistry_commands w)
          (CommandsRegistry_calls w).

Definition with_heap (h : Heap) (w : World) : World :=
  mkWorld (registry w) h (ids w) (cssRules w) (MenuRegistry_commands w)
          (CommandsRegistry_calls w).

Definition with__tasks (l : loc) (r : Registry) : Registry :=
  mkRegistry l (_onTaskRegistered r) (taskIdToIconClassNameMap r)
             (taskIdToCommandActionMap r).

(** The contents of the array [this._tasks] refers to. *)
Definition tasks (w : World) : list string :=
  load (heap w) (_tasks (registry w)).

(** The state when the module has been loaded: an empty array, no listener
    called, two empty maps, a new generator. *)
Definition initial : World :=
  let '(l, h) := alloc [] (mkHeap ∅ 0) in
  {| registry := mkRegistry l [] ∅ ∅;
     heap := h;
     ids := newIdGenerator "task-icon-";
     cssRules := [];
     MenuRegistry_commands := [];
     CommandsRegistry_calls := [] |}.

(** ** The host's registries *)

Definition MenuRegistry_addCommand (c : ICommandAction) (w : World) : World :=
  mkWorld (registry w) (heap w) (ids w) (cssRules w)
          (MenuRegistry_commands w ++ [c]) (CommandsRegistry_calls w).

Definition CommandsRegistry_call (c : CommandsCall) (w : World) : World :=
  mkWorld (registry w) (heap w) (ids w) (cssRules w)
          (MenuRegistry_commands w) (CommandsRegistry_calls w ++ [c]).

(** [registerCommand], when it returns, returns a disposable: the position
    of the call. When it returns is [CommandsRegistry_accepts]. *)
Definition CommandsRegistry_registerCommand (c : CommandsCall) (w : World)
  : nat * World :=
  (length (CommandsRegistry_calls w), CommandsRegistry_call c w).

(** Whether the host's [registerCommand] returns for a call. Its code is
    not part of the file: it throws [invalid command] when its first
    argument is falsy, which for a string is the empty id, and when a
    string comes without a handler; a task object passes. *)
Definition CommandsRegistry_accepts (c : CommandsCall) : bool :=
  match c with
  | RegisterCommandId id handler =>
      bool_decide (id ≠ EmptyString)
      && match handler with Some _ => true | None => false end
  | RegisterCommand _ => true
  | DisposeCommand _ => true
  end.

(** ** [TaskRegistry] *)

(** The [IDisposable] that [registerTask] returns: a closure over [id] and
    over the disposable of the command. *)
Record TaskDisposable := mkTaskDisposable {
  d_id : string;
  d_disposable : nat
}.

(** [this._tasks.push(id)] *)
Definition push_task (id : string) (w : World) : World :=
  with_heap (store (_tasks (registry w)) (tasks w ++ [id]) (heap w)) w.

(** [this._onTaskRegistered.fire(id)] *)
Definition fire (id : string) (w : World) : World :=
  let r := registry w in
  with_registry
    (mkRegistry (_tasks r) (_onTaskRegistered r ++ [mkFired id (tasks w)])
                (taskIdToIconClassNameMap r) (taskIdToCommandActionMap r)) w.

Definition set_iconClassName (id c : string) (w : World) : World :=
  let r := registry w in
  with_registry
    (mkRegistry (_tasks r) (_onTaskRegistered r)
                (<[id := c]> (taskIdToIconClassNameMap r))
                (taskIdToCommandActionMap r)) w.

Definition set_commandAction (id : string) (c : ICommandAction) (w : World)
  : World :=
  let r := registry w in
  with_registry
    (mkRegistry (_tasks r) (_onTaskRegistered r) (taskIdToIconClassNameMap r)
                (<[id := c]> (taskIdToCommandActionMap r))) w.

Definition registerTask (idOrTask : string + ITask)
    (handler : option ITaskHandler) (w : World) : TaskDisposable * World :=
  let '(disposable, id, w) :=
    match idOrTask with
    | inl s =>
        let '(d, w) :=
          CommandsRegistry_registerCommand (RegisterCommandId s handler) w in
        (d, s, w)
    | inr t =>
        let w :=
          match truthy (itask_iconClass t) with
          | Some c => set_iconClassName (itask_id t) c w
          | None => w
          end in
        let w :=
          match itask_iconPath t, truthy (itask_title t) with
          | Some p, Some title =>
              set_commandAction (itask_id t)
                {| ca_iconPath := Some p; ca_id := itask_id t;
                   ca_title := title |} w
          | _, _ => w
          end in
        let '(d, w) :=
          CommandsRegistry_registerCommand (RegisterCommand t) w in
        (d, itask_id t, w)
    end in
  let w := push_task id w in
  let w := fire id w in
  ({| d_id := id; d_disposable := disposable |}, w).

(** How a call ends: it returns its value, or an exception leaves it. *)
Inductive Outcome :=
  | Returned (d : TaskDisposable) (w : World)
  | Threw (w : World).

(** [registerTask] with the exception of the host. [registerCommand] is
    called before [push] and [fire]: when it throws, the exception leaves
    [registerTask] at that call, the caller gets no disposable, and
    nothing is pushed or fired. Only the call for a string can throw, and
    nothing has been written by then. When [registerCommand] returns, the
    call is [registerTask] above. *)
Definition registerTask_run (idOrTask : string + ITask)
    (handler : option ITaskHandler) (w : World) : Outcome :=
  let command :=
    match idOrTask with
    | inl s => RegisterCommandId s handler
    | inr t => RegisterCommand t
    end in
  if CommandsRegistry_accepts command
  then let '(d, w) := registerTask idOrTask handler w in Returned d w
  else Threw w.

(** The [dispose] of the object that [registerTask] returns. [splice]
    removes the element from the array in place and returns a new array
    holding what it removed; that array is assigned to [this._tasks]. *)
Definition dispose (d : TaskDisposable) (w : World) : World :=
  let index := indexOf (d_id d) (tasks w) in
  let w :=
    if (0 <=? index)%Z then
      let '(removed, rest) := splice (Z.to_nat index) 1 (tasks w) in
      let h := store (_tasks (registry w)) rest (heap w) in
      let '(l, h) := alloc removed h in
      with_registry (with__tasks l (registry w)) (with_heap h w)
    else w in
  CommandsRegistry_call (DisposeCommand (d_disposable d)) w.

Definition dquote : string := String (Ascii.ascii_of_nat 34) EmptyString.

Definition createCSSRule (selector cssText : string) (w : World) : World :=
  mkWorld (registry w) (heap w) (ids w) (cssRules w ++ [(selector, cssText)])
          (MenuRegistry_commands w) (CommandsRegistry_calls w).

Definition backgroundImage (path : string) : string :=
  "background-image: url(" +:+ dquote +:+ URI_file_toString path +:+ dquote +:+ ")".

Definition getOrCreateTaskIconClassName (item : ICommandAction) (w : World)
  : option string * World :=
  match taskIdToIconClassNameMap (registry w) !! ca_id item with
  | Some iconClass => (Some iconClass, w)
  | None =>
      match ca_iconPath item with
      | Some iconPath =>
          let '(iconClass, g) := nextId (ids w) in
          let w := mkWorld (registry w) (heap w) g (cssRules w)
                     (MenuRegistry_commands w) (CommandsRegistry_calls w) in
          let w :=
            createCSSRule (".icon." +:+ iconClass)
              (backgroundImage (orElse (light iconPath) (dark iconPath))) w in
          let w :=
            createCSSRule
              (".vs-dark .icon." +:+ iconClass +:+ ", .hc-black .icon." +:+ iconClass)
              (backgroundImage (dark iconPath)) w in
          let w := set_iconClassName (ca_id item) iconClass w in
          (Some iconClass, w)
      | None => (None, w)
      end
  end.

(** [this._tasks.slice(0)]: a new array. *)
Definition getTasks (w : World) : loc * World :=
  let '(l, h) := alloc (slice 0 (tasks w)) (heap w) in
  (l, with_heap h w).

Definition getCommandActionById (taskId : string) (w : World)
  : option ICommandAction :=
  taskIdToCommandActionMap (registry w) !! taskId.

(** [Task.registerTask(showInCommandPalette = true)]: a missing argument
    takes the default. *)
Definition Task_registerTask (this : Task) (showInCommandPalette : option bool)
    (w : World) : TaskDisposable * World :=
  let showInCommandPalette := default true showInCommandPalette in
  let w :=
    if showInCommandPalette
    then MenuRegistry_addCommand (toCommandAction this) w
    else w in
  registerTask (inr (toITask this)) None w.

End Tasks.

(** ** Reading the results *)

(** The ids in the array that [getTasks()] returns. *)
Definition getTasks_ids `{Host} (w : World) : list string :=
  let '(l, w') := getTasks w in load (heap w') l.

(** The id under which [registerTask] files its argument. *)
Definition idOf `{Host} (idOrTask : string + ITask) : string :=
  match idOrTask with
  | inl s => s
  | inr t => itask_id t
  end.

(** A caller changing, in any way, the array it holds a reference to. *)
Definition mutateArray `{Host} (l : loc) (v : list string) (w : World) : World :=
  with_heap (store l v (heap w)) w.

(** The registry's array has been allocated. *)
Definition wf `{Host} (w : World) : Prop :=
  _tasks (registry w) < next (heap w).

(** ** Sequences of calls *)

Section Calls.
Context `{host : Host}.

(** What a client of the module can call: the methods of [ITaskRegistry],
    the [dispose] of a registration, and [registerTask] of a [Task]. *)
Inductive Call :=
  | CallRegisterTask (idOrTask : string + ITask) (handler : option ITaskHandler)
  | CallDispose (d : TaskDisposable)
  | CallGetOrCreateTaskIconClassName (item : ICommandAction)
  | CallGetTasks
  | CallGetCommandActionById (taskId : string)
  | CallTaskRegisterTask (this : Task) (showInCommandPalette : option bool).

(** The state after a call, its result dropped. *)
Definition call (c : Call) (w : World) : World :=
  match c with
  | CallRegisterTask idOrTask handler => (registerTask idOrTask handler w).2
  | CallDispose d => dispose d w
  | CallGetOrCreateTaskIconClassName item =>
      (getOrCreateTaskIconClassName item w).2
  | CallGetTasks => (getTasks w).2
  | CallGetCommandActionById _ => w
  | CallTaskRegisterTask this show => (Task_registerTask this show w).2
  end.

Definition calls (cs : list Call) (w : World) : World :=
  foldl (λ w c, call c w) w cs.

(** The icon class that a call registers, with the id it registers it for:
    a registration of a task whose [iconClass] is a non-empty string. *)
Definition registeredIconClass (c : Call) : option (string * string) :=
  match c with
  | CallRegisterTask (inr t) _ =>
      (λ iconClass, (itask_id t, iconClass)) <$> truthy (itask_iconClass t)
  | CallTaskRegisterTask this _ =>
      (λ iconClass, (task_id this, iconClass)) <$> truthy (task__iconClass this)
  | _ => None
  end.

(** The icon class registered last for [id] by [cs], or [c0] when [cs]
    registers none for it. *)
Definition lastIconClass (id : string) (c0 : string) (cs : list Call) : string :=
  foldl (λ cur c,
           match registeredIconClass c with
           | Some (id', iconClass) =>
               if decide (id' = id) then iconClass else cur
           | None => cur
           end) c0 cs.

(** No call of [cs] registers for [id] an icon class other than [c0]. *)
Definition keepsIconClass (id : string) (c0 : string) (cs : list Call) : Prop :=
  Forall (λ c, ∀ iconClass,
            registeredIconClass c = Some (id, iconClass) → iconClass = c0) cs.

(** The id that a call appends to the task list: the calls that register. *)
Definition registeredId (c : Call) : option string :=
  match c with
  | CallRegisterTask idOrTask _ => Some (idOf idOrTask)
  | CallTaskRegisterTask this _ => Some (task_id this)
  | _ => None
  end.

(** The command action that [registerTask] files for a task: the one built
    under the guard [idOrTask.iconPath && idOrTask.title]. *)
Definition commandActionOf (t : ITask) : option ICommandAction :=
  match itask_iconPath t, truthy (itask_title t) with
  | Some p, Some title =>
      Some {| ca_iconPath := Some p; ca_id := itask_id t; ca_title := title |}
  | _, _ => None
  end.

(** The command action that a call files, if it files one. *)
Definition registeredCommandAction (c : Call) : option ICommandAction :=
  match c with
  | CallRegisterTask (inr t) _ => commandActionOf t
  | CallTaskRegisterTask this _ => commandActionOf (toITask this)
  | _ => None
  end.

(** The command action filed last for [id] by [cs], or [cur] when [cs]
    files none for it. *)
Definition lastCommandAction (id : string) (cur : option ICommandAction)
    (cs : list Call) : option ICommandAction :=
  foldl (λ cur c,
           match registeredCommandAction c with
           | Some a => if decide (ca_id a = id) then Some a else cur
           | None => cur
           end) cur cs.

Definition isDispose (c : Call) : bool :=
  match c with
  | CallDispose _ => true
  | _ => false
  end.

(** The call to [CommandsRegistry.registerCommand] that [registerTask]
    makes for its arguments. *)
Definition commandCallOf (idOrTask : string + ITask)
    (handler : option ITaskHandler) : CommandsCall :=
  match idOrTask with
  | inl s => RegisterCommandId s handler
  | inr t => RegisterCommand t
  end.

(** The state after a call as the program runs it, whether the call has
    returned or thrown: [call], but for a registration that
    [registerCommand] rejects, which leaves the state as it was. *)
Definition call_run (c : Call) (w : World) : World :=
  match c with
  | CallRegisterTask idOrTask handler =>
      match registerTask_run idOrTask handler w with
      | Returned _ w1 => w1
      | Threw w1 => w1
      end
  | _ => call c w
  end.

Definition calls_run (cs : list Call) (w : World) : World :=
  foldl (λ w c, call_run c w) w cs.

(** The id that a call appends to the task list as the program runs it:
    the id of a registration that returns. *)
Definition returnedId (c : Call) : option string :=
  match c with
  | CallRegisterTask idOrTask handler =>
      if CommandsRegistry_accepts (commandCallOf idOrTask handler)
      then Some (idOf idOrTask) else None
  | CallTaskRegisterTask this _ => Some (task_id this)
  | _ => None
  end.

Definition returnedIds (cs : list Call) : list string :=
  omap returnedId cs.

End Calls.

(** ** The extension manifest *)

Module Manifest.

#[local] Unset Elimination Schemes.

Inductive JSON :=
  | JNull
  | JBool (b : bool)
  | JNumber (n : Z)
  | JString (s : string)
  | JArray (items : list JSON)
  | JObject (members : list (string * JSON)).

(** [j[key]] of an object; of two members with one key the later counts. *)
Definition member (key : string) (j : JSON) : option JSON :=
  match j with
  | JObject members => snd <$> last (filter (λ kv, kv.1 = key) members)
  | _ => None
  end.

Definition items (j : JSON) : list JSON :=
  match j with
  | JArray l => l
  | _ => []
  end.

(** [j[k1][k2]...] *)
Definition at_path (keys : list string) (j : JSON) : option JSON :=
  foldl (λ o key, o ≫= member key) (Some j) keys.

(** The elements of the array at a path; none when there is no array. *)
Definition items_at (keys : list string) (j : JSON) : list JSON :=
  from_option items [] (at_path keys j).

(** The [package.json] of the extension. *)
Definition manifest : JSON :=
  JObject [
    ("name", JString "import");
    ("displayName", JString "SQL Server Import");
    ("description", JString "Imports data from a flat file.");
    ("version", JString "0.0.2");
    ("publisher", JString "Microsoft");
    ("preview", JBool true);
    ("engines", JObject [
      ("vscode", JString "^1.25.0");
      ("sqlops", JString "*")]);
    ("license", JString
      "https://raw.githubusercontent.com/Microsoft/sqlopsstudio/master/LICENSE.txt");
    ("icon", JString "images/sqlserver.png");
    ("aiKey", JString "AIF-5574968e-856d-40d2-af67-c89a14e76412");
    ("activationEvents", JArray [JString "*"]);
    ("main", JString "./out/main");
    ("repository", JObject [
      ("type", JString "git");
      ("url", JString "https://github.com/Microsoft/sqlopsstudio.git")]);
    ("extensionDependencies", JArray [JString "Microsoft.mssql"]);
    ("contributes", JObject [
      ("commands", JArray [
        JObject [
          ("command", JString "flatFileImport.start");
          ("title", JString "Import wizard");
          ("category", JString "Flat File Import");
          ("icon", JObject [
            ("light", JString "./images/light_icon.svg");
            ("dark", JString "./images/dark_icon.svg")])]]);
      ("keybindings", JArray [
        JObject [
          ("command", JString "flatFileImport.start");
          ("key", JString "ctrl+i");
          ("mac", JString "ctrl+i")]]);
      ("dashboard.tabs", JArray [
        JObject [
          ("id", JString "flat-file-import");
          ("title", JString "Flat File Import");
          ("description", JString "The flat file importer.");
          ("container", JObject [
            ("flat-file-import-container", JObject [])])]]);
      ("dashboard.containers", JArray [
        JObject [
          ("id", JString "flat-file-import-container");
          ("container", JObject [
            ("widgets-container", JArray [
              JObject [
                ("name", JString "Tasks");
                ("widget", JObject [
                  ("tasks-widget", JArray [
                    JString "flatFileImport.start"])])]])])]]);
      ("menus", JObject [
        ("objectExplorer/item/context", JArray [
          JObject [
            ("command", JString "flatFileImport.start");
            ("when", JString
              "connectionProvider == MSSQL && nodeType && nodeType == Database");
            ("group", JString "import")]])])]);
    ("dependencies", JObject [
      ("dataprotocol-client",
        JString "github:Microsoft/sqlops-dataprotocolclient#0.2.7");
      ("opener", JString "^1.4.3");
      ("service-downloader",
        JString "github:anthonydresser/service-downloader#0.1.4");
      ("vscode-extension-telemetry", JString "^0.0.5");
      ("vscode-nls", JString "^3.2.1")]);
    ("devDependencies", JObject [])
  ].

(** The [command] of every entry of the array at a path. *)
Definition commands_at (keys : list string) (j : JSON) : list (option JSON) :=
  member "command" <$> items_at keys j.

(** The tasks named by the dashboard: the [tasks-widget] arrays of the
    widgets of every contributed container, one after the other. *)
Definition dashboard_tasks (j : JSON) : list JSON :=
  container ← items_at ["contributes"; "dashboard.containers"] j;
  widget ← items_at ["container"; "widgets-container"] container;
  items_at ["widget"; "tasks-widget"] widget.

End Manifest.

(** ** A host to run the model on *)

Definition exampleHost : Host := {|
  ITaskHandler := string;
  ContextKeyExpr := string;
  TypeConstraint := string;
  IdGenerator := string * nat;
  newIdGenerator prefix := (prefix, 0);
  nextId g := (g.1 +:+ pretty (S g.2), (g.1, S g.2));
  URI_file_toString path := "file://" +:+ path
|}.

Definition exampleIcon : @IconPath :=
  {| dark := "/img/dark.svg"; light := Some "/img/light.svg" |}.

Definition exampleTask (id : string) (iconClass : option string)
  : @ITask exampleHost :=
  @mkITask exampleHost id "run" None None iconClass (Some exampleIcon)
           (Some "Import").

(** A task with an icon whose title is the empty string. *)
Definition untitledTask : @ITask exampleHost :=
  @mkITask exampleHost "a" "run" None None None (Some exampleIcon)
           (Some EmptyString).

Definition exampleItem (id : string) (iconPath : option IconPath)
  : ICommandAction :=
  {| ca_iconPath := iconPath; ca_id := id; ca_title := "Import" |}.

(** The calls made between the registration and the lookup in the example
    of C4: another task is registered, the list is read, the other task is
    disposed of, and the same id is registered again with the same class. *)
Definition exampleCalls : list (@Call exampleHost) :=
  [ CallRegisterTask (inr (exampleTask "b" (Some "class-b"))) None;
    CallGetTasks;
    CallDispose {| d_id := "b"; d_disposable := 1 |};
    CallRegisterTask (inr (exampleTask "a" (Some "class-a"))) None ].

(** * Facts about the model *)

(** ** The heap *)

Section HeapFacts.
Implicit Types (h : Heap) (l : loc) (v : list string).

Lemma load_store_eq h l v : load (store l v h) l = v.
Proof. unfold load, store; simpl. apply lookup_total_insert_eq. Qed.

Lemma load_store_ne h l l' v : l ≠ l' → load (store l v h) l' = load h l'.
Proof. intros Hne. unfold load, store; simpl. by apply lookup_total_insert_ne. Qed.

Lemma load_alloc_new h v : load (alloc v h).2 (alloc v h).1 = v.
Proof. unfold load, alloc; simpl. apply lookup_total_insert_eq. Qed.

Lemma load_alloc_old h l v : l < next h → load (alloc v h).2 l = load h l.
Proof.
  intros Hlt. unfold load, alloc; simpl.
  apply lookup_total_insert_ne. lia.
Qed.

Lemma next_alloc h v : next (alloc v h).2 = S (next h).
Proof. reflexivity. Qed.

Lemma next_store h l v : next (store l v h) = next h.
Proof. reflexivity. Qed.

End HeapFacts.

(** ** Arrays *)

Lemma slice_0 (l : list string) : slice 0 l = l.
Proof. reflexivity. Qed.

Lemma indexOf_bounds (x : string) (l : list string) :
  (-1 ≤ indexOf x l < Z.of_nat (length l))%Z.
Proof.
  induction l as [|y l IH]; simpl; [lia|].
  case_decide; [lia|].
  destruct (Z.leb_spec 0 (indexOf x l)); lia.
Qed.

Lemma indexOf_found (x : string) (l : list string) :
  (0 ≤ indexOf x l)%Z → l !! Z.to_nat (indexOf x l) = Some x.
Proof.
  induction l as [|y l IH]; simpl; [lia|].
  case_decide as Hy; [by subst|].
  destruct (Z.leb_spec 0 (indexOf x l)) as [Hi|Hi]; [|lia].
  intros _. rewrite Z2Nat.inj_add by lia. rewrite Nat.add_comm. simpl.
  by apply IH.
Qed.

Lemma indexOf_elem (x : string) (l : list string) :
  x ∈ l ↔ (0 ≤ indexOf x l)%Z.
Proof.
  induction l as [|y l IH]; simpl.
  - split; [by intros ?%elem_of_nil | lia].
  - case_decide as Hy.
    + subst. split; [lia | intros _; left].
    + rewrite elem_of_cons, IH.
      destruct (Z.leb_spec 0 (indexOf x l)) as [Hi|Hi].
      * split; [lia | by right].
      * split; [intros [?|?]; [done | lia] | lia].
Qed.

(** [splice(index, 1)] returns exactly the element it removes. *)
Lemma splice_one_removed (i : nat) (x : string) (l : list string) :
  l !! i = Some x → (splice i 1 l).1 = [x].
Proof.
  intros Hi. unfold splice; simpl.
  by rewrite (drop_S _ _ _ Hi).
Qed.

Lemma splice_one_rest (i : nat) (l : list string) :
  (splice i 1 l).2 = delete i l.
Proof.
  unfold splice; simpl.
  by rewrite delete_take_drop, Nat.add_1_r.
Qed.

(** ** The registry *)

Section RegistryFacts.
Context `{host : Host}.
Implicit Types (w : World) (t : ITask) (item : ICommandAction).

Lemma getTasks_ids_tasks w : getTasks_ids w = tasks w.
Proof.
  unfold getTasks_ids, getTasks. rewrite slice_0.
  destruct (alloc (tasks w) (heap w)) as [l h] eqn:E. simpl.
  pose proof (load_alloc_new (heap w) (tasks w)) as Hl.
  by rewrite E in Hl.
Qed.

Lemma tasks_push_task id w : tasks (push_task id w) = tasks w ++ [id].
Proof. unfold push_task, tasks at 1; simpl. apply load_store_eq. Qed.

(** The part of [registerTask] before [push]: it leaves the heap and the
    reference alone. *)
Lemma registerTask_unfold idOrTask handler w :
  ∃ w0, tasks w0 = tasks w
      ∧ _tasks (registry w0) = _tasks (registry w)
      ∧ heap w0 = heap w
      ∧ _onTaskRegistered (registry w0) = _onTaskRegistered (registry w)
      ∧ registerTask idOrTask handler w
        = ({| d_id := idOf idOrTask;
              d_disposable := length (CommandsRegistry_calls w) |},
           fire (idOf idOrTask) (push_task (idOf idOrTask) w0)).
Proof.
  unfold registerTask.
  destruct idOrTask as [s|t]; simpl.
  - by eexists (CommandsRegistry_call _ w).
  - destruct (truthy (itask_iconClass t)), (itask_iconPath t),
      (truthy (itask_title t)); simpl;
      (eexists; split_and!; [..|reflexivity]; reflexivity).
Qed.

Lemma tasks_registerTask idOrTask handler w :
  tasks (registerTask idOrTask handler w).2 = tasks w ++ [idOf idOrTask].
Proof.
  destruct (registerTask_unfold idOrTask handler w)
    as (w0 & Ht & Hl & Hh & _ & ->). simpl.
  change (tasks (fire ?i ?x)) with (tasks x).
  by rewrite tasks_push_task, Ht.
Qed.

Lemma fired_registerTask idOrTask handler w :
  _onTaskRegistered (registry (registerTask idOrTask handler w).2)
  = _onTaskRegistered (registry w)
    ++ [mkFired (idOf idOrTask) (tasks w ++ [idOf idOrTask])].
Proof.
  destruct (registerTask_unfold idOrTask handler w)
    as (w0 & Ht & Hl & Hh & Hf & ->). simpl.
  by rewrite tasks_push_task, Ht, Hf.
Qed.

Lemma _tasks_registerTask idOrTask handler w :
  _tasks (registry (registerTask idOrTask handler w).2) = _tasks (registry w).
Proof.
  by destruct (registerTask_unfold idOrTask handler w)
    as (w0 & Ht & Hl & Hh & Hf & ->).
Qed.

Lemma next_registerTask idOrTask handler w :
  next (heap (registerTask idOrTask handler w).2) = next (heap w).
Proof.
  destruct (registerTask_unfold idOrTask handler w)
    as (w0 & Ht & Hl & Hh & Hf & ->). simpl. by rewrite Hh.
Qed.

(** [registerTask] calls neither [MenuRegistry] nor [createCSSRule] nor
    the id generator. *)
Lemma registerTask_frame idOrTask handler w :
  let w1 := (registerTask idOrTask handler w).2 in
  MenuRegistry_commands w1 = MenuRegistry_commands w
  ∧ cssRules w1 = cssRules w
  ∧ ids w1 = ids w.
Proof.
  unfold registerTask.
  destruct idOrTask as [s|t]; simpl; [done|].
  by destruct (truthy (itask_iconClass t)), (itask_iconPath t),
    (truthy (itask_title t)).
Qed.

(** What [dispose] leaves in [_tasks]. *)
Lemma tasks_dispose_registered (d : TaskDisposable) w :
  d_id d ∈ tasks w → tasks (dispose d w) = [d_id d].
Proof.
  intros Hin%indexOf_elem. unfold dispose.
  destruct (Z.leb_spec 0 (indexOf (d_id d) (tasks w))) as [_|?]; [|lia].
  pose proof (splice_one_removed _ _ _ (indexOf_found _ _ Hin)) as Hrm.
  destruct (splice _ 1 (tasks w)) as [removed rest]. simpl in Hrm. subst.
  unfold tasks; simpl. apply lookup_total_insert_eq.
Qed.

Lemma tasks_dispose_unregistered (d : TaskDisposable) w :
  d_id d ∉ tasks w → tasks (dispose d w) = tasks w.
Proof.
  intros Hin. unfold dispose.
  destruct (Z.leb_spec 0 (indexOf (d_id d) (tasks w))) as [Hi|?]; [|done].
  by apply indexOf_elem in Hi.
Qed.

(** [registerTask_run] by what the host says to the command. *)
Lemma registerTask_run_accepted idOrTask handler w :
  CommandsRegistry_accepts (commandCallOf idOrTask handler) = true →
  registerTask_run idOrTask handler w
  = Returned (registerTask idOrTask handler w).1
             (registerTask idOrTask handler w).2.
Proof.
  intros Hacc. unfold registerTask_run.
  change (match idOrTask with
          | inl s => RegisterCommandId s handler
          | inr t => RegisterCommand t
          end) with (commandCallOf idOrTask handler).
  rewrite Hacc. by destruct (registerTask idOrTask handler w).
Qed.

Lemma registerTask_run_rejected idOrTask handler w :
  CommandsRegistry_accepts (commandCallOf idOrTask handler) = false →
  registerTask_run idOrTask handler w = Threw w.
Proof.
  intros Hrej. unfold registerTask_run.
  change (match idOrTask with
          | inl s => RegisterCommandId s handler
          | inr t => RegisterCommand t
          end) with (commandCallOf idOrTask handler).
  by rewrite Hrej.
Qed.

End RegistryFacts.

(** ** Icon classes *)

Section IconFacts.
Context `{host : Host}.
Implicit Types (w : World) (t : ITask) (item : ICommandAction).

Local Abbreviation iconMap w := (taskIdToIconClassNameMap (registry w)).

(** A known id: the entry is returned and nothing is touched. *)
Lemma getOrCreateTaskIconClassName_known item w (iconClass : string) :
  iconMap w !! ca_id item = Some iconClass →
  getOrCreateTaskIconClassName item w = (Some iconClass, w).
Proof. intros Hm. unfold getOrCreateTaskIconClassName. by rewrite Hm. Qed.

(** An unknown id with an icon: the class just made is the entry. *)
Lemma getOrCreateTaskIconClassName_fresh item w (p : IconPath) :
  iconMap w !! ca_id item = None →
  ca_iconPath item = Some p →
  let '(r, w1) := getOrCreateTaskIconClassName item w in
  r = Some (nextId (ids w)).1
  ∧ iconMap w1 = <[ca_id item := (nextId (ids w)).1]> (iconMap w).
Proof.
  intros Hm Hp. unfold getOrCreateTaskIconClassName. rewrite Hm, Hp.
  by destruct (nextId (ids w)) as [iconClass g].
Qed.

Lemma iconMap_registerTask idOrTask handler w :
  iconMap (registerTask idOrTask handler w).2
  = match idOrTask with
    | inr t =>
        match truthy (itask_iconClass t) with
        | Some c => <[itask_id t := c]> (iconMap w)
        | None => iconMap w
        end
    | inl _ => iconMap w
    end.
Proof.
  unfold registerTask. destruct idOrTask as [s|t]; simpl; [done|].
  by destruct (truthy (itask_iconClass t)), (itask_iconPath t),
    (truthy (itask_title t)).
Qed.

Lemma iconMap_dispose (d : TaskDisposable) w :
  iconMap (dispose d w) = iconMap w.
Proof.
  unfold dispose. destruct (0 <=? _)%Z; [|done].
  by destruct (splice _ _ _).
Qed.

(** An entry of the icon map is never removed; a call changes it only by
    registering an icon class for its id. *)
Lemma iconMap_call (c : Call) w (id cur : string) :
  iconMap w !! id = Some cur →
  iconMap (call c w) !! id
  = Some match registeredIconClass c with
         | Some (id', iconClass) =>
             if decide (id' = id) then iconClass else cur
         | None => cur
         end.
Proof.
  intros Hm.
  destruct c as [[s|t] h|d|item| |taskId|this show];
    cbn [call registeredIconClass fmap option_fmap option_map].
  - by rewrite iconMap_registerTask.
  - rewrite iconMap_registerTask.
    destruct (truthy (itask_iconClass t)) as [c|]; simpl; [|done].
    rewrite lookup_insert. by repeat case_decide.
  - by rewrite iconMap_dispose.
  - destruct (iconMap w !! ca_id item) as [c|] eqn:Hitem.
    + by rewrite (getOrCreateTaskIconClassName_known _ _ _ Hitem).
    + destruct (ca_iconPath item) as [p|] eqn:Hp.
      * pose proof (getOrCreateTaskIconClassName_fresh item w p Hitem Hp) as Hf.
        destruct (getOrCreateTaskIconClassName item w) as [r w1].
        destruct Hf as [_ Hf]. cbn [snd]. rewrite Hf.
        rewrite lookup_insert_ne; [done|]. congruence.
      * unfold getOrCreateTaskIconClassName. by rewrite Hitem, Hp.
  - done.
  - done.
  - unfold Task_registerTask. rewrite iconMap_registerTask. simpl.
    assert (∀ b : bool,
      iconMap (if b then MenuRegistry_addCommand (toCommandAction this) w else w)
      = iconMap w) as -> by (by intros []).
    destruct (truthy (task__iconClass this)) as [c|]; simpl; [|done].
    rewrite lookup_insert. by repeat case_decide.
Qed.

Lemma iconMap_calls (cs : list Call) w (id cur : string) :
  iconMap w !! id = Some cur →
  iconMap (calls cs w) !! id = Some (lastIconClass id cur cs).
Proof.
  revert w cur. induction cs as [|c cs IH]; intros w cur Hm; [done|].
  simpl. apply IH. by apply iconMap_call.
Qed.

Lemma lastIconClass_keeps (id c0 : string) (cs : list Call) :
  keepsIconClass id c0 cs → lastIconClass id c0 cs = c0.
Proof.
  unfold keepsIconClass, lastIconClass.
  induction 1 as [|c cs Hc _ IH]; [done|]. simpl.
  destruct (registeredIconClass c) as [[id' iconClass]|]; [|done].
  case_decide as Hid; [|done]. subst id'.
  by rewrite (Hc iconClass eq_refl).
Qed.

End IconFacts.

(** ** [getTasks] and the arrays it hands out *)

Section SnapshotFacts.
Context `{host : Host}.
Implicit Types (w : World).

Lemma wf_initial : wf initial.
Proof. unfold wf; simpl. lia. Qed.

Lemma wf_dispose (d : TaskDisposable) w : wf w → wf (dispose d w).
Proof.
  unfold wf, dispose. intros Hwf.
  destruct (0 <=? _)%Z; [|done].
  destruct (splice _ _ _); simpl. lia.
Qed.

Lemma wf_getOrCreateTaskIconClassName (item : ICommandAction) w :
  wf w → wf (getOrCreateTaskIconClassName item w).2.
Proof.
  unfold wf, getOrCreateTaskIconClassName. intros Hwf.
  destruct (_ !! _); [done|]. destruct (ca_iconPath item); [|done].
  by destruct (nextId (ids w)).
Qed.

Lemma wf_call (c : Call) w : wf w → wf (call c w).
Proof.
  intros Hwf. destruct c as [i h|d|item| |taskId|this show]; cbn [call].
  - unfold wf. by rewrite _tasks_registerTask, next_registerTask.
  - by apply wf_dispose.
  - by apply wf_getOrCreateTaskIconClassName.
  - unfold wf, getTasks in *; simpl. lia.
  - done.
  - unfold Task_registerTask, wf.
    rewrite _tasks_registerTask, next_registerTask.
    by destruct (default true show).
Qed.

(** Every state the module reaches from its initial one is well formed. *)
Lemma wf_calls (cs : list Call) w : wf w → wf (calls cs w).
Proof.
  revert w. induction cs as [|c cs IH]; intros w Hwf; [done|].
  simpl. by apply IH, wf_call.
Qed.

End SnapshotFacts.

(** * The properties of the specification *)

(** ** The [Task] class and registration *)

Section TaskClaims.
Context `{host : Host}.
Implicit Types (w : World) (t : ITask) (item : ICommandAction).

(** C5. The [Task] class copies the fields of its options into the two
    records: the [ITask] made from [new Task(opts)] has the id, title,
    iconPath, iconClass and description of [opts], and the [ICommandAction]
    made from it has the id, title and iconPath of [opts]. *)
Theorem Task_wraps_options (runTask : ITaskHandler) (opts : ITaskOptions) :
  let this := Task_constructor runTask opts in
  (itask_id (toITask this) = opts_id opts
   ∧ itask_title (toITask this) = Some (opts_title opts)
   ∧ itask_iconPath (toITask this) = Some (opts_iconPath opts)
   ∧ itask_iconClass (toITask this) = opts_iconClass opts
   ∧ itask_description (toITask this) = opts_description opts)
  ∧ (ca_id (toCommandAction this) = opts_id opts
     ∧ ca_title (toCommandAction this) = opts_title opts
     ∧ ca_iconPath (toCommandAction this) = Some (opts_iconPath opts)).
Proof. by intros this; split_and!. Qed.

(** C10 (amended). [registerTask] does not look for the id in the list,
    and notifies on every call that [CommandsRegistry.registerCommand]
    accepts: such a call, with an id or with a task, returns, appends the
    id to the task list and fires [onTaskRegistered] once with that id,
    the listeners seeing the list with the id appended; a second such call
    with the same argument makes the id appear twice at the end of
    [getTasks()]. A call that [registerCommand] rejects throws there,
    before the push: the state is the one before the call, so nothing is
    appended and nothing fired. *)
Theorem registerTask_appends_and_fires (idOrTask : string + ITask)
    (handler handler' : option ITaskHandler) w :
  let id := idOf idOrTask in
  (CommandsRegistry_accepts (commandCallOf idOrTask handler) = true →
   ∃ d1 w1,
     registerTask_run idOrTask handler w = Returned d1 w1
     ∧ getTasks_ids w1 = getTasks_ids w ++ [id]
     ∧ _onTaskRegistered (registry w1)
       = _onTaskRegistered (registry w)
         ++ [mkFired id (getTasks_ids w ++ [id])]
     ∧ (CommandsRegistry_accepts (commandCallOf idOrTask handler') = true →
        ∃ d2 w2,
          registerTask_run idOrTask handler' w1 = Returned d2 w2
          ∧ getTasks_ids w2 = getTasks_ids w ++ [id; id]))
  ∧ (CommandsRegistry_accepts (commandCallOf idOrTask handler) = false →
     registerTask_run idOrTask handler w = Threw w).
Proof.
  intros id. subst id. split; [|apply registerTask_run_rejected].
  intros Hacc. eexists _, _.
  split; [by apply registerTask_run_accepted|].
  rewrite !getTasks_ids_tasks, fired_registerTask, tasks_registerTask.
  split_and!; [done..|].
  intros Hacc'. eexists _, _.
  split; [by apply registerTask_run_accepted|].
  rewrite getTasks_ids_tasks, !tasks_registerTask. by rewrite <- app_assoc.
Qed.

(** C1 (what the code does). Register [a], then [b], and dispose the
    registration of [a]: [getTasks()] was [a; b] and is now [a] alone. The
    disposed id stays and the other id is gone, since [dispose] keeps the
    array that [splice] returns, the removed elements. *)
Theorem dispose_keeps_only_the_disposed_id (ha hb : option ITaskHandler) :
  let '(da, w1) := registerTask (inl "a") ha initial in
  let '(db, w2) := registerTask (inl "b") hb w1 in
  getTasks_ids w2 = ["a"; "b"] ∧ getTasks_ids (dispose da w2) = ["a"].
Proof. split; vm_compute; reflexivity. Qed.

(** C2 (amended). After [registerTask(t)] for a task whose [iconPath] is
    present and whose [title] is a non-empty string, [getTasks()] contains
    the id of [t] and [getCommandActionById] of that id gives a command
    action with the id, title and iconPath of [t]. *)
Theorem registerTask_then_lookup t (handler : option ITaskHandler) w
    (p : IconPath) (title : string) :
  itask_iconPath t = Some p →
  truthy (itask_title t) = Some title →
  let w1 := (registerTask (inr t) handler w).2 in
  itask_id t ∈ getTasks_ids w1
  ∧ ∃ c, getCommandActionById (itask_id t) w1 = Some c
       ∧ ca_id c = itask_id t
       ∧ Some (ca_title c) = itask_title t
       ∧ ca_iconPath c = itask_iconPath t.
Proof.
  intros Hp Ht w1. split.
  - subst w1. rewrite getTasks_ids_tasks, tasks_registerTask.
    apply elem_of_app; right. by left.
  - exists {| ca_iconPath := Some p; ca_id := itask_id t; ca_title := title |}.
    assert (itask_title t = Some title) as Htitle.
    { unfold truthy in Ht. destruct (itask_title t); [|done].
      by case_decide. }
    split_and!; [|done..].
    subst w1. unfold registerTask, getCommandActionById. rewrite Hp, Ht.
    destruct (truthy (itask_iconClass t)); simpl; apply lookup_insert_eq.
Qed.

(** C6. [Task.registerTask] shows the task in the command palette on
    request. With no argument or with [true] it adds the command action of
    the task to [MenuRegistry] and then registers the task in
    [TaskRegistry]; with [false] it registers the task in [TaskRegistry]
    the same way and the commands of [MenuRegistry] stay as they were. *)
Theorem Task_registerTask_palette (this : Task) w :
  let shown := MenuRegistry_addCommand (toCommandAction this) w in
  (Task_registerTask this None w = registerTask (inr (toITask this)) None shown
   ∧ Task_registerTask this (Some true) w
     = registerTask (inr (toITask this)) None shown
   ∧ MenuRegistry_commands (Task_registerTask this (Some true) w).2
     = MenuRegistry_commands w ++ [toCommandAction this]
   ∧ getTasks_ids (Task_registerTask this (Some true) w).2
     = getTasks_ids w ++ [task_id this])
  ∧ (Task_registerTask this (Some false) w
     = registerTask (inr (toITask this)) None w
     ∧ MenuRegistry_commands (Task_registerTask this (Some false) w).2
       = MenuRegistry_commands w
     ∧ getTasks_ids (Task_registerTask this (Some false) w).2
       = getTasks_ids w ++ [task_id this]).
Proof.
  intros shown.
  assert (Task_registerTask this (Some true) w
          = registerTask (inr (toITask this)) None shown) as Htrue by done.
  assert (Task_registerTask this (Some false) w
          = registerTask (inr (toITask this)) None w) as Hfalse by done.
  rewrite Htrue, Hfalse, !getTasks_ids_tasks, !tasks_registerTask.
  split_and!; try done.
  - by rewrite (proj1 (registerTask_frame _ _ _)).
  - by rewrite (proj1 (registerTask_frame _ _ _)).
Qed.

End TaskClaims.

Section IconClaims.
Context `{host : Host}.
Implicit Types (w : World) (t : ITask) (item : ICommandAction).

(** C3. [getOrCreateTaskIconClassName] is idempotent: for an item with an
    [iconPath], a second call with the same item returns the class name of
    the first call, takes no new name from the generator, creates no CSS
    rule and leaves the map from ids to icon classes as it was. *)
Theorem getOrCreateTaskIconClassName_idempotent item (p : IconPath) w :
  ca_iconPath item = Some p →
  let '(r1, w1) := getOrCreateTaskIconClassName item w in
  let '(r2, w2) := getOrCreateTaskIconClassName item w1 in
  r2 = r1
  ∧ ids w2 = ids w1
  ∧ cssRules w2 = cssRules w1
  ∧ taskIdToIconClassNameMap (registry w2)
    = taskIdToIconClassNameMap (registry w1).
Proof.
  intros Hp.
  destruct (taskIdToIconClassNameMap (registry w) !! ca_id item)
    as [c|] eqn:Hm.
  - by rewrite !(getOrCreateTaskIconClassName_known _ _ _ Hm).
  - pose proof (getOrCreateTaskIconClassName_fresh item w p Hm Hp) as Hf.
    destruct (getOrCreateTaskIconClassName item w) as [r1 w1].
    destruct Hf as [-> Hmap].
    assert (taskIdToIconClassNameMap (registry w1) !! ca_id item
            = Some (nextId (ids w)).1) as Hm1
      by (rewrite Hmap; apply lookup_insert_eq).
    by rewrite (getOrCreateTaskIconClassName_known _ _ _ Hm1).
Qed.

(** C8. For an item whose id has no entry in the map of icon classes and
    which has no [iconPath], [getOrCreateTaskIconClassName] returns [null]
    and the state is the one before the call. *)
Theorem getOrCreateTaskIconClassName_null item w :
  taskIdToIconClassNameMap (registry w) !! ca_id item = None →
  ca_iconPath item = None →
  getOrCreateTaskIconClassName item w = (None, w).
Proof.
  intros Hm Hp. unfold getOrCreateTaskIconClassName. by rewrite Hm, Hp.
Qed.

(** C4 (amended). After a task has been registered with a non-empty
    [iconClass], and after any calls made since, a call of
    [getOrCreateTaskIconClassName] with an item of that id, with or without
    an [iconPath], takes no name from the generator and creates no CSS rule,
    and returns the icon class registered last for that id: the one of the
    task when no later registration of that id carries another one. *)
Theorem registered_iconClass_is_returned t (handler : option ITaskHandler)
    (c0 : string) (cs : list Call) item w :
  truthy (itask_iconClass t) = Some c0 →
  ca_id item = itask_id t →
  let w1 := calls cs (registerTask (inr t) handler w).2 in
  let '(r, w2) := getOrCreateTaskIconClassName item w1 in
  r = Some (lastIconClass (itask_id t) c0 cs)
  ∧ ids w2 = ids w1
  ∧ cssRules w2 = cssRules w1
  ∧ (keepsIconClass (itask_id t) c0 cs → r = Some c0).
Proof.
  intros Hc Hid w1.
  assert (taskIdToIconClassNameMap (registry w1) !! ca_id item
          = Some (lastIconClass (itask_id t) c0 cs)) as Hm.
  { rewrite Hid. apply iconMap_calls.
    rewrite iconMap_registerTask, Hc. apply lookup_insert_eq. }
  rewrite (getOrCreateTaskIconClassName_known _ _ _ Hm).
  split_and!; [done..|].
  intros Hkeep. by rewrite (lastIconClass_keeps _ _ _ Hkeep).
Qed.

End IconClaims.

Section SnapshotClaims.
Context `{host : Host}.
Implicit Types (w : World).

(** C9. [getTasks] observes and returns a snapshot. In a state whose
    [_tasks] array has been allocated, the call returns a new array holding
    the ids; it leaves every field of the registry, the contents of
    [_tasks] and of every array there was, and the rest of the state
    unchanged; and whatever the caller then writes into the returned array,
    the next [getTasks()] returns the same ids. *)
Theorem getTasks_snapshot w (v : list string) :
  wf w →
  let '(l, w1) := getTasks w in
  load (heap w1) l = tasks w
  ∧ registry w1 = registry w
  ∧ tasks w1 = tasks w
  ∧ (∀ l', l' < next (heap w) → load (heap w1) l' = load (heap w) l')
  ∧ (ids w1 = ids w ∧ cssRules w1 = cssRules w
     ∧ MenuRegistry_commands w1 = MenuRegistry_commands w
     ∧ CommandsRegistry_calls w1 = CommandsRegistry_calls w)
  ∧ getTasks_ids (mutateArray l v w1) = getTasks_ids w.
Proof.
  intros Hwf. unfold wf in Hwf.
  unfold getTasks. rewrite slice_0.
  pose proof (load_alloc_new (heap w) (tasks w)) as Hnew.
  pose proof (λ l', load_alloc_old (heap w) l' (tasks w)) as Hold.
  pose proof (next_alloc (heap w) (tasks w)) as Hnext.
  destruct (alloc (tasks w) (heap w)) as [l h] eqn:Ha.
  assert (l = next (heap w)) as Hl by (by inversion Ha).
  simpl in Hnew, Hold, Hnext.
  assert (tasks (with_heap h w) = tasks w) as Ht by (by apply Hold).
  split_and!; try done.
  rewrite !getTasks_ids_tasks.
  unfold mutateArray, tasks at 1. simpl.
  rewrite load_store_ne by lia. by apply Hold.
Qed.

End SnapshotClaims.

(** ** The manifest *)

Section ManifestClaims.
Import Manifest.

(** C7. The manifest refers to the wizard command as
    [flatFileImport.start] in its contributed commands, its keybindings,
    its dashboard widget and its context menu, and its extension
    dependencies are the extension [Microsoft.mssql]. *)
Theorem manifest_wizard_command :
  let start := JString "flatFileImport.start" in
  commands_at ["contributes"; "commands"] manifest = [Some start]
  ∧ commands_at ["contributes"; "keybindings"] manifest = [Some start]
  ∧ dashboard_tasks manifest = [start]
  ∧ commands_at ["contributes"; "menus"; "objectExplorer/item/context"]
      manifest = [Some start]
  ∧ items_at ["extensionDependencies"] manifest = [JString "Microsoft.mssql"].
Proof. by vm_compute. Qed.

End ManifestClaims.

(** ** The claims at work on the example host *)

Section Examples.
#[local] Existing Instance exampleHost.

(** C2 at the example task, registered first. *)
Lemma registerTask_then_lookup_example :
  itask_iconPath (exampleTask "a" None) = Some exampleIcon
  ∧ truthy (itask_title (exampleTask "a" None)) = Some "Import"
  ∧ ("a" ∈ getTasks_ids
             (registerTask (inr (exampleTask "a" None)) None initial).2
     ∧ ∃ c, getCommandActionById "a"
              (registerTask (inr (exampleTask "a" None)) None initial).2
            = Some c
          ∧ ca_id c = "a"
          ∧ Some (ca_title c) = Some "Import"
          ∧ ca_iconPath c = Some exampleIcon).
Proof.
  split; [reflexivity|]. split; [reflexivity|].
  apply (registerTask_then_lookup (exampleTask "a" None) None initial
           exampleIcon "Import"); reflexivity.
Defined.

(** C3 at an item that has an icon and no class yet. *)
Lemma getOrCreateTaskIconClassName_idempotent_example :
  ca_iconPath (exampleItem "a" (Some exampleIcon)) = Some exampleIcon
  ∧ let '(r1, w1) :=
      getOrCreateTaskIconClassName (exampleItem "a" (Some exampleIcon))
        initial in
    let '(r2, w2) :=
      getOrCreateTaskIconClassName (exampleItem "a" (Some exampleIcon)) w1 in
    r2 = r1
    ∧ ids w2 = ids w1
    ∧ cssRules w2 = cssRules w1
    ∧ taskIdToIconClassNameMap (registry w2)
      = taskIdToIconClassNameMap (registry w1).
Proof.
  split; [reflexivity|].
  apply (getOrCreateTaskIconClassName_idempotent
           (exampleItem "a" (Some exampleIcon)) exampleIcon initial).
  reflexivity.
Defined.

(** C8 at an item without an icon, in the initial state. *)
Lemma getOrCreateTaskIconClassName_null_example :
  taskIdToIconClassNameMap (registry initial) !! ca_id (exampleItem "a" None)
  = None
  ∧ ca_iconPath (exampleItem "a" None) = None
  ∧ getOrCreateTaskIconClassName (exampleItem "a" None) initial
    = (None, initial).
Proof.
  split; [reflexivity|]. split; [reflexivity|].
  apply (getOrCreateTaskIconClassName_null (exampleItem "a" None) initial);
    reflexivity.
Defined.

(** C4 (amended) at a task registered with the class [class-a], looked up
    after calls that register no other class for its id. *)
Lemma registered_iconClass_is_returned_example :
  truthy (itask_iconClass (exampleTask "a" (Some "class-a"))) = Some "class-a"
  ∧ ca_id (exampleItem "a" (Some exampleIcon))
    = itask_id (exampleTask "a" (Some "class-a"))
  ∧ keepsIconClass "a" "class-a" exampleCalls
  ∧ let w1 :=
      calls exampleCalls
        (registerTask (inr (exampleTask "a" (Some "class-a"))) None initial).2 in
    let '(r, w2) :=
      getOrCreateTaskIconClassName (exampleItem "a" (Some exampleIcon)) w1 in
    r = Some (lastIconClass "a" "class-a" exampleCalls)
    ∧ ids w2 = ids w1
    ∧ cssRules w2 = cssRules w1
    ∧ (keepsIconClass "a" "class-a" exampleCalls → r = Some "class-a").
Proof.
  split; [reflexivity|]. split; [reflexivity|]. split.
  - repeat (constructor; [intros c Hc; vm_compute in Hc; by simplify_eq|]).
    constructor.
  - apply (registered_iconClass_is_returned (exampleTask "a" (Some "class-a"))
             None "class-a" exampleCalls (exampleItem "a" (Some exampleIcon))
             initial); reflexivity.
Defined.

(** C4 as stated fails: a task is registered under [a] with the class
    [class-a], then another under the same id with the class [class-b]; the
    later call for [a] returns [class-b], not the class of the first task. *)
Lemma later_registration_replaces_iconClass :
  let t := exampleTask "a" (Some "class-a") in
  let w1 := (registerTask (inr t) None initial).2 in
  let w2 := (registerTask (inr (exampleTask "a" (Some "class-b"))) None w1).2 in
  let item := exampleItem "a" (Some exampleIcon) in
  truthy (itask_iconClass t) = Some "class-a"
  ∧ ca_id item = itask_id t
  ∧ (getOrCreateTaskIconClassName item w2).1 = Some "class-b"
  ∧ (getOrCreateTaskIconClassName item w2).1 ≠ Some "class-a".
Proof. vm_compute. split_and!; [done..|]. discriminate. Qed.

(** C9 in the state with one task registered: the caller overwrites the
    array it got with two made-up ids. *)
Lemma getTasks_snapshot_example :
  wf (registerTask (inl "a") None initial).2
  ∧ let '(l, w1) := getTasks (registerTask (inl "a") None initial).2 in
    load (heap w1) l = tasks (registerTask (inl "a") None initial).2
    ∧ registry w1 = registry (registerTask (inl "a") None initial).2
    ∧ tasks w1 = tasks (registerTask (inl "a") None initial).2
    ∧ (∀ l', l' < next (heap (registerTask (inl "a") None initial).2) →
         load (heap w1) l'
         = load (heap (registerTask (inl "a") None initial).2) l')
    ∧ (ids w1 = ids (registerTask (inl "a") None initial).2
       ∧ cssRules w1 = cssRules (registerTask (inl "a") None initial).2
       ∧ MenuRegistry_commands w1
         = MenuRegistry_commands (registerTask (inl "a") None initial).2
       ∧ CommandsRegistry_calls w1
         = CommandsRegistry_calls (registerTask (inl "a") None initial).2)
    ∧ getTasks_ids (mutateArray l ["x"; "y"] w1)
      = getTasks_ids (registerTask (inl "a") None initial).2.
Proof.
  assert (wf (registerTask (inl "a") None initial).2) as Hwf
    by (unfold wf; simpl; lia).
  split; [exact Hwf|].
  exact (getTasks_snapshot (registerTask (inl "a") None initial).2
           ["x"; "y"] Hwf).
Defined.

(** C2 as stated fails: a task whose [iconPath] and [title] are both
    set, the title to the empty string. The guard
    [idOrTask.iconPath && idOrTask.title] is false for it, no command
    action is filed, and [getCommandActionById] of its id gives
    [undefined]. *)
Lemma empty_title_files_no_command_action :
  itask_iconPath untitledTask = Some exampleIcon
  ∧ itask_title untitledTask = Some EmptyString
  ∧ getCommandActionById (itask_id untitledTask)
      (registerTask (inr untitledTask) None initial).2 = None.
Proof. split_and!; reflexivity. Qed.

(** C10 (amended) at an id that comes with a handler, registered twice. *)
Lemma registerTask_appends_and_fires_example :
  CommandsRegistry_accepts (commandCallOf (inl "a") (Some "run")) = true
  ∧ ∃ d1 w1,
      registerTask_run (inl "a") (Some "run") initial = Returned d1 w1
      ∧ getTasks_ids w1 = getTasks_ids initial ++ ["a"]
      ∧ _onTaskRegistered (registry w1)
        = _onTaskRegistered (registry initial)
          ++ [mkFired "a" (getTasks_ids initial ++ ["a"])]
      ∧ (CommandsRegistry_accepts (commandCallOf (inl "a") (Some "run"))
         = true →
         ∃ d2 w2,
           registerTask_run (inl "a") (Some "run") w1 = Returned d2 w2
           ∧ getTasks_ids w2 = getTasks_ids initial ++ ["a"; "a"]).
Proof.
  split; [reflexivity|].
  exact (proj1 (registerTask_appends_and_fires (inl "a") (Some "run")
                  (Some "run") initial) eq_refl).
Defined.

(** C10 as stated fails: [registerTask] with the empty id and a handler,
    and with an id and no handler, are calls that append no id and fire
    no event: [registerCommand] throws, and the state stays the initial
    one, with an empty task list and no event fired. *)
Lemma rejected_registration_appends_nothing :
  registerTask_run (inl EmptyString) (Some "run") initial = Threw initial
  ∧ registerTask_run (inl "a") None initial = Threw initial
  ∧ getTasks_ids initial = []
  ∧ _onTaskRegistered (registry initial) = [].
Proof. split_and!; reflexivity. Qed.

End Examples.

(** * Further facts about the model *)

(** ** What each operation leaves alone *)

Section FrameFacts.
Context `{host : Host}.
Implicit Types (w : World) (t : ITask) (item : ICommandAction) (c : Call).

Local Abbreviation iconMap w := (taskIdToIconClassNameMap (registry w)).
Local Abbreviation actionMap w := (taskIdToCommandActionMap (registry w)).

Lemma Task_registerTask_eq (this : Task) (show : option bool) w :
  Task_registerTask this show w
  = registerTask (inr (toITask this)) None
      (if default true show
       then MenuRegistry_addCommand (toCommandAction this) w else w).
Proof. reflexivity. Qed.

Lemma ca_id_commandActionOf t (a : ICommandAction) :
  commandActionOf t = Some a → ca_id a = itask_id t.
Proof.
  unfold commandActionOf.
  destruct (itask_iconPath t), (truthy (itask_title t)); intros [=]; by subst.
Qed.

Lemma actionMap_registerTask idOrTask handler w :
  actionMap (registerTask idOrTask handler w).2
  = match idOrTask with
    | inr t =>
        match commandActionOf t with
        | Some a => <[itask_id t := a]> (actionMap w)
        | None => actionMap w
        end
    | inl _ => actionMap w
    end.
Proof.
  unfold registerTask, commandActionOf.
  destruct idOrTask as [s|t]; simpl; [done|].
  by destruct (truthy (itask_iconClass t)), (itask_iconPath t),
    (truthy (itask_title t)).
Qed.

Lemma commands_registerTask idOrTask handler w :
  CommandsRegistry_calls (registerTask idOrTask handler w).2
  = CommandsRegistry_calls w ++ [commandCallOf idOrTask handler].
Proof.
  unfold registerTask.
  destruct idOrTask as [s|t]; simpl; [done|].
  by destruct (truthy (itask_iconClass t)), (itask_iconPath t),
    (truthy (itask_title t)).
Qed.

Lemma disposable_registerTask idOrTask handler w :
  (registerTask idOrTask handler w).1
  = {| d_id := idOf idOrTask;
       d_disposable := length (CommandsRegistry_calls w) |}.
Proof.
  by destruct (registerTask_unfold idOrTask handler w) as (w0 & _ & _ & _ & _ & ->).
Qed.

Lemma load_registerTask idOrTask handler w (l : loc) :
  l ≠ _tasks (registry w) →
  load (heap (registerTask idOrTask handler w).2) l = load (heap w) l.
Proof.
  intros Hl.
  destruct (registerTask_unfold idOrTask handler w)
    as (w0 & _ & Ht & Hh & _ & ->). simpl.
  rewrite Ht, Hh. by apply load_store_ne.
Qed.

(** [dispose] touches [_tasks], the heap and [CommandsRegistry] only. *)
Lemma dispose_frame (d : TaskDisposable) w :
  let w1 := dispose d w in
  iconMap w1 = iconMap w
  ∧ actionMap w1 = actionMap w
  ∧ _onTaskRegistered (registry w1) = _onTaskRegistered (registry w)
  ∧ ids w1 = ids w
  ∧ cssRules w1 = cssRules w
  ∧ MenuRegistry_commands w1 = MenuRegistry_commands w
  ∧ CommandsRegistry_calls w1
    = CommandsRegistry_calls w ++ [DisposeCommand (d_disposable d)].
Proof.
  unfold dispose. destruct (0 <=? _)%Z; [|done].
  by destruct (splice _ _ _).
Qed.

(** [getOrCreateTaskIconClassName] touches the icon map, the generator and
    the CSS rules only. *)
Lemma getOrCreateTaskIconClassName_frame item w :
  let w1 := (getOrCreateTaskIconClassName item w).2 in
  actionMap w1 = actionMap w
  ∧ _tasks (registry w1) = _tasks (registry w)
  ∧ heap w1 = heap w
  ∧ _onTaskRegistered (registry w1) = _onTaskRegistered (registry w)
  ∧ MenuRegistry_commands w1 = MenuRegistry_commands w
  ∧ CommandsRegistry_calls w1 = CommandsRegistry_calls w.
Proof.
  unfold getOrCreateTaskIconClassName.
  destruct (_ !! _); [done|]. destruct (ca_iconPath item); [|done].
  by destruct (nextId (ids w)).
Qed.

Lemma tasks_getTasks w : wf w → tasks (getTasks w).2 = tasks w.
Proof.
  unfold wf, tasks, getTasks. intros Hwf. rewrite slice_0. simpl.
  by apply (load_alloc_old (heap w)).
Qed.

(** The action map after a call. *)
Lemma actionMap_call c w (id : string) :
  actionMap (call c w) !! id
  = match registeredCommandAction c with
    | Some a => if decide (ca_id a = id) then Some a else actionMap w !! id
    | None => actionMap w !! id
    end.
Proof.
  assert (∀ t h w',
    actionMap (registerTask (inr t) h w').2 !! id
    = match commandActionOf t with
      | Some a => if decide (ca_id a = id) then Some a else actionMap w' !! id
      | None => actionMap w' !! id
      end) as Hreg.
  { intros t h w'. rewrite actionMap_registerTask.
    destruct (commandActionOf t) as [a|] eqn:Ha; [|done].
    rewrite (ca_id_commandActionOf _ _ Ha). apply lookup_insert. }
  destruct c as [[s|t] h|d|item| |taskId|this show];
    cbn [call registeredCommandAction].
  - by rewrite actionMap_registerTask.
  - apply Hreg.
  - by rewrite (proj1 (proj2 (dispose_frame d w))).
  - by rewrite (proj1 (getOrCreateTaskIconClassName_frame item w)).
  - done.
  - done.
  - rewrite Task_registerTask_eq, Hreg. by destruct (default true show).
Qed.

Lemma actionMap_calls (cs : list Call) w (id : string) :
  actionMap (calls cs w) !! id = lastCommandAction id (actionMap w !! id) cs.
Proof.
  revert w. induction cs as [|c cs IH]; intros w; [done|].
  simpl. rewrite IH, actionMap_call. done.
Qed.

(** The ids fired by a call: the one it registers. *)
Lemma fired_call c w :
  fired_id <$> _onTaskRegistered (registry (call c w))
  = (fired_id <$> _onTaskRegistered (registry w)) ++ option_list (registeredId c).
Proof.
  destruct c as [i h|d|item| |taskId|this show]; cbn [call registeredId option_list].
  - by rewrite fired_registerTask, fmap_app.
  - rewrite (proj1 (proj2 (proj2 (dispose_frame d w)))). by rewrite app_nil_r.
  - rewrite (proj1 (proj2 (proj2 (proj2
      (getOrCreateTaskIconClassName_frame item w))))). by rewrite app_nil_r.
  - by rewrite app_nil_r.
  - by rewrite app_nil_r.
  - rewrite Task_registerTask_eq, fired_registerTask, fmap_app.
    by destruct (default true show).
Qed.

(** The task list after a call that is not a [dispose]. *)
Lemma tasks_call c w :
  wf w → isDispose c = false →
  tasks (call c w) = tasks w ++ option_list (registeredId c).
Proof.
  intros Hwf Hc.
  destruct c as [i h|d|item| |taskId|this show];
    cbn [call registeredId option_list]; try done.
  - apply tasks_registerTask.
  - pose proof (getOrCreateTaskIconClassName_frame item w) as (_ & Ht & Hh & _).
    unfold tasks. by rewrite Ht, Hh, app_nil_r.
  - by rewrite tasks_getTasks, app_nil_r.
  - by rewrite app_nil_r.
  - rewrite Task_registerTask_eq, tasks_registerTask.
    by destruct (default true show).
Qed.

(** The journal of [CommandsRegistry] only grows. *)
Lemma commands_call c w :
  CommandsRegistry_calls w `prefix_of` CommandsRegistry_calls (call c w).
Proof.
  destruct c as [i h|d|item| |taskId|this show]; cbn [call]; try done.
  - rewrite commands_registerTask. by apply prefix_app_r.
  - rewrite (proj2 (proj2 (proj2 (proj2 (proj2 (proj2 (dispose_frame d w))))))).
    by apply prefix_app_r.
  - by rewrite (proj2 (proj2 (proj2 (proj2 (proj2
      (getOrCreateTaskIconClassName_frame item w)))))).
  - rewrite Task_registerTask_eq, commands_registerTask.
    apply prefix_app_r. by destruct (default true show).
Qed.

Lemma commands_calls (cs : list Call) w :
  CommandsRegistry_calls w `prefix_of` CommandsRegistry_calls (calls cs w).
Proof.
  revert w. induction cs as [|c cs IH]; intros w; [done|].
  simpl. etrans; [apply (commands_call c)|apply IH].
Qed.

(** An array that is not the one of [_tasks] is out of reach of every call:
    its contents stay, and it never becomes the array of [_tasks]. *)
Lemma detached_call c w (l : loc) :
  wf w → l < next (heap w) → l ≠ _tasks (registry w) →
  load (heap (call c w)) l = load (heap w) l
  ∧ l < next (heap (call c w))
  ∧ l ≠ _tasks (registry (call c w)).
Proof.
  intros Hwf Hl Hne. unfold wf in Hwf.
  destruct c as [i h|d|item| |taskId|this show]; cbn [call].
  - rewrite load_registerTask, next_registerTask, _tasks_registerTask by done.
    done.
  - unfold dispose. destruct (0 <=? _)%Z; [|done].
    destruct (splice _ _ _) as [removed rest]. simpl.
    split_and!; [|lia..].
    unfold load; simpl.
    rewrite lookup_total_insert_ne by lia.
    by rewrite lookup_total_insert_ne.
  - pose proof (getOrCreateTaskIconClassName_frame item w) as (_ & Ht & Hh & _).
    by rewrite Ht, Hh.
  - unfold getTasks; simpl. split_and!; [|lia|done].
    by apply (load_alloc_old (heap w)).
  - done.
  - rewrite Task_registerTask_eq.
    rewrite load_registerTask, next_registerTask, _tasks_registerTask;
      by destruct (default true show).
Qed.

(** [call_run] is [call] for a registration that returns and does nothing
    for one that throws. *)
Lemma call_run_cases c w :
  (call_run c w = call c w ∧ returnedId c = registeredId c)
  ∨ (call_run c w = w ∧ returnedId c = None).
Proof.
  destruct c as [i h|d|item| |taskId|this show]; cbn [call_run returnedId];
    try (by left).
  destruct (CommandsRegistry_accepts (commandCallOf i h)) eqn:Hacc.
  - left. by rewrite (registerTask_run_accepted _ _ _ Hacc).
  - right. by rewrite (registerTask_run_rejected _ _ _ Hacc).
Qed.

Lemma wf_call_run c w : wf w → wf (call_run c w).
Proof.
  intros Hwf. destruct (call_run_cases c w) as [[-> _]|[-> _]]; [|done].
  by apply wf_call.
Qed.

Lemma fired_call_run c w :
  fired_id <$> _onTaskRegistered (registry (call_run c w))
  = (fired_id <$> _onTaskRegistered (registry w)) ++ option_list (returnedId c).
Proof.
  destruct (call_run_cases c w) as [[-> ->]|[-> ->]].
  - apply fired_call.
  - simpl. by rewrite app_nil_r.
Qed.

Lemma tasks_call_run c w :
  wf w → isDispose c = false →
  tasks (call_run c w) = tasks w ++ option_list (returnedId c).
Proof.
  intros Hwf Hc. destruct (call_run_cases c w) as [[-> ->]|[-> ->]].
  - by apply tasks_call.
  - simpl. by rewrite app_nil_r.
Qed.

End FrameFacts.

(** * Further properties of the code *)

Section DisposeProperties.
Context `{host : Host}.
Implicit Types (w : World) (d : TaskDisposable) (item : ICommandAction).

(** X1. [dispose] for an id that is not in the task list: [indexOf] gives
    [-1], the list returned by [getTasks()] stays as it is, and the
    disposable of the command is disposed of all the same. *)
Theorem dispose_of_absent_id d w :
  d_id d ∉ getTasks_ids w →
  getTasks_ids (dispose d w) = getTasks_ids w
  ∧ CommandsRegistry_calls (dispose d w)
    = CommandsRegistry_calls w ++ [DisposeCommand (d_disposable d)].
Proof.
  rewrite !getTasks_ids_tasks. intros Hin. split.
  - by apply tasks_dispose_unregistered.
  - apply dispose_frame.
Qed.

(** X2. Calling [dispose] a second time changes the task list no further:
    [getTasks()] after two calls is [getTasks()] after one. The command's
    own disposable is disposed of once per call. *)
Theorem dispose_twice d w :
  getTasks_ids (dispose d (dispose d w)) = getTasks_ids (dispose d w)
  ∧ CommandsRegistry_calls (dispose d (dispose d w))
    = CommandsRegistry_calls w
      ++ [DisposeCommand (d_disposable d); DisposeCommand (d_disposable d)].
Proof.
  split.
  - rewrite !getTasks_ids_tasks.
    destruct (decide (d_id d ∈ tasks w)) as [Hin|Hin].
    + rewrite (tasks_dispose_registered d w Hin).
      apply tasks_dispose_registered.
      rewrite (tasks_dispose_registered d w Hin). by left.
    + apply tasks_dispose_unregistered.
      by rewrite (tasks_dispose_unregistered d w Hin).
  - pose proof (dispose_frame d (dispose d w)) as (_&_&_&_&_&_& ->).
    pose proof (dispose_frame d w) as (_&_&_&_&_&_& ->).
    by rewrite <- app_assoc.
Qed.

(** X3. [dispose] takes back neither the icon class nor the command action
    of its task, and does not touch [MenuRegistry]: after it,
    [getCommandActionById] answers as before for every id and
    [getOrCreateTaskIconClassName] returns for every item what it would
    have returned before. *)
Theorem dispose_keeps_icon_and_action d w item (id : string) :
  getCommandActionById id (dispose d w) = getCommandActionById id w
  ∧ (getOrCreateTaskIconClassName item (dispose d w)).1
    = (getOrCreateTaskIconClassName item w).1
  ∧ MenuRegistry_commands (dispose d w) = MenuRegistry_commands w.
Proof.
  pose proof (dispose_frame d w) as (Hicon & Haction & _ & Hids & _ & Hmenu & _).
  split_and!; [|  |done].
  - unfold getCommandActionById. by rewrite Haction.
  - unfold getOrCreateTaskIconClassName. rewrite Hicon, Hids.
    destruct (_ !! _); [done|]. destruct (ca_iconPath item); [|done].
    by destruct (nextId (ids w)).
Qed.

(** X9. The disposable that [registerTask] returns disposes of the command
    registered by that very call, whatever calls come in between: its
    [dispose] is passed on to the disposable that
    [CommandsRegistry.registerCommand] returned for the arguments of the
    registration, and that is the last thing [dispose] does. *)
Theorem dispose_disposes_own_command (idOrTask : string + ITask)
    (handler : option ITaskHandler) (cs : list Call) w :
  let '(d, w1) := registerTask idOrTask handler w in
  let w2 := dispose d (calls cs w1) in
  CommandsRegistry_calls w2 !! d_disposable d
  = Some (commandCallOf idOrTask handler)
  ∧ last (CommandsRegistry_calls w2) = Some (DisposeCommand (d_disposable d)).
Proof.
  pose proof (disposable_registerTask idOrTask handler w) as Hd.
  pose proof (commands_registerTask idOrTask handler w) as Hc.
  destruct (registerTask idOrTask handler w) as [d w1]. simpl in Hd, Hc.
  cbv zeta.
  pose proof (dispose_frame d (calls cs w1)) as (_&_&_&_&_&_& ->).
  split; [|apply last_snoc].
  apply lookup_app_l_Some.
  apply (prefix_lookup_Some (CommandsRegistry_calls w1));
    [|apply commands_calls].
  rewrite Hc, Hd. simpl. by apply list_lookup_middle.
Qed.

End DisposeProperties.

Section RegistrationProperties.
Context `{host : Host}.
Implicit Types (w : World) (t : ITask) (item : ICommandAction).

(** X4. A registration that carries no command action files none: with an
    id and a handler, or with a task that has no [iconPath] or whose
    [title] is missing or empty, [getCommandActionById] answers after
    [registerTask] as it did before, for every id. *)
Theorem registerTask_without_command_action (idOrTask : string + ITask)
    (handler : option ITaskHandler) w (id : string) :
  (∀ t, idOrTask = inr t →
        itask_iconPath t = None ∨ truthy (itask_title t) = None) →
  getCommandActionById id (registerTask idOrTask handler w).2
  = getCommandActionById id w.
Proof.
  intros Hno. unfold getCommandActionById. rewrite actionMap_registerTask.
  destruct idOrTask as [s|t]; [done|].
  unfold commandActionOf.
  destruct (Hno t eq_refl) as [-> | ->]; [done|].
  by destruct (itask_iconPath t).
Qed.

(** X5. Command actions are never removed, and of several filed for one id
    the last one counts: after any calls, [getCommandActionById] gives the
    action of the latest registration that carried one for the id, or what
    it gave before when there was none. From the initial state it gives
    [undefined] for an id no registration has filed an action for. *)
Theorem getCommandActionById_after_calls (cs : list Call) w (id : string) :
  getCommandActionById id (calls cs w)
  = lastCommandAction id (getCommandActionById id w) cs
  ∧ (Forall (λ c, ∀ a, registeredCommandAction c = Some a → ca_id a ≠ id) cs →
     getCommandActionById id (calls cs initial) = None).
Proof.
  unfold getCommandActionById. split; [apply actionMap_calls|].
  intros Hnone. rewrite actionMap_calls.
  change (taskIdToCommandActionMap (registry initial) !! id) with
    ((∅ : gmap string ICommandAction) !! id).
  rewrite lookup_empty. unfold lastCommandAction.
  induction Hnone as [|c cs Hc _ IH]; [done|]. simpl.
  destruct (registeredCommandAction c) as [a|]; [|done].
  case_decide as Hid; [|done]. by destruct (Hc a eq_refl).
Qed.

(** X6. [onTaskRegistered] fires for registrations and for nothing else:
    over any calls, run as the program runs them, the ids passed to the
    listeners are the ids of the registrations that returned, in the
    order of the calls; a registration that the host rejects fires
    nothing. *)
Theorem onTaskRegistered_fires_per_registration (cs : list Call) w :
  fired_id <$> _onTaskRegistered (registry (calls_run cs w))
  = (fired_id <$> _onTaskRegistered (registry w)) ++ returnedIds cs.
Proof.
  revert w. induction cs as [|c cs IH]; intros w; simpl.
  - by rewrite app_nil_r.
  - rewrite IH, fired_call_run, <- app_assoc. f_equal.
    unfold returnedIds. simpl. by destruct (returnedId c).
Qed.

(** X7. As long as nothing is disposed of, [getTasks()] lists the ids in
    the order of their registration: after calls among which there is no
    [dispose], run as the program runs them, it is what it was, followed
    by the ids of the registrations that returned, in order; a
    registration that the host rejects adds nothing. *)
Theorem getTasks_in_registration_order (cs : list Call) w :
  wf w →
  Forall (λ c, isDispose c = false) cs →
  getTasks_ids (calls_run cs w) = getTasks_ids w ++ returnedIds cs.
Proof.
  rewrite !getTasks_ids_tasks. intros Hwf Hcs. revert w Hwf.
  induction Hcs as [|c cs Hc _ IH]; intros w Hwf; simpl.
  - by rewrite app_nil_r.
  - rewrite IH by (by apply wf_call_run).
    rewrite tasks_call_run, <- app_assoc by done. f_equal.
    unfold returnedIds. simpl. by destruct (returnedId c).
Qed.

End RegistrationProperties.

Section SnapshotProperties.
Context `{host : Host}.
Implicit Types (w : World).

(** X8. The array that [getTasks()] returns is the caller's own: no later
    call to the registry, be it a registration or a [dispose], changes
    what it holds. *)
Theorem getTasks_result_is_stable (cs : list Call) w :
  wf w →
  let '(l, w1) := getTasks w in
  load (heap (calls cs w1)) l = getTasks_ids w.
Proof.
  intros Hwf. rewrite getTasks_ids_tasks.
  pose proof (wf_call CallGetTasks w Hwf) as Hwf1.
  assert (load (heap (getTasks w).2) (getTasks w).1 = tasks w) as Hload.
  { rewrite <- getTasks_ids_tasks. unfold getTasks_ids.
    by destruct (getTasks w). }
  assert ((getTasks w).1 < next (heap (getTasks w).2)) as Hlt
    by (unfold getTasks; simpl; lia).
  assert ((getTasks w).1 ≠ _tasks (registry (getTasks w).2)) as Hne
    by (unfold wf in Hwf; unfold getTasks; simpl; lia).
  cbn [call] in Hwf1.
  destruct (getTasks w) as [l w1]. simpl in *.
  rewrite <- Hload. clear Hload Hwf.
  revert w1 Hwf1 Hlt Hne. induction cs as [|c cs IH]; intros w1 Hwf1 Hlt Hne.
  - done.
  - simpl. destruct (detached_call c w1 l Hwf1 Hlt Hne) as (<- & Hlt' & Hne').
    apply IH; [by apply wf_call|done..].
Qed.

End SnapshotProperties.

Section IconProperties.
Context `{host : Host}.
Implicit Types (w : World) (item : ICommandAction).

(** X10. For an id without an icon class and an item with an icon,
    [getOrCreateTaskIconClassName] takes the next id of the generator as
    the class, creates two CSS rules for it, one for the light themes and
    one for the dark and high contrast themes, and files the class under
    the id. The first rule shows the light icon, and the dark icon when
    the light one is missing or empty. *)
Theorem getOrCreateTaskIconClassName_creates item (p : IconPath) w :
  taskIdToIconClassNameMap (registry w) !! ca_id item = None →
  ca_iconPath item = Some p →
  let iconClass := (nextId (ids w)).1 in
  let '(r, w1) := getOrCreateTaskIconClassName item w in
  r = Some iconClass
  ∧ ids w1 = (nextId (ids w)).2
  ∧ cssRules w1
    = cssRules w
      ++ [ (".icon." +:+ iconClass,
            backgroundImage
              match light p with
              | Some l => if decide (l = EmptyString) then dark p else l
              | None => dark p
              end);
           (".vs-dark .icon." +:+ iconClass +:+ ", .hc-black .icon."
              +:+ iconClass,
            backgroundImage (dark p)) ]
  ∧ taskIdToIconClassNameMap (registry w1)
    = <[ca_id item := iconClass]> (taskIdToIconClassNameMap (registry w)).
Proof.
  intros Hm Hp. unfold getOrCreateTaskIconClassName. rewrite Hm, Hp.
  destruct (nextId (ids w)) as [iconClass g]. simpl.
  split_and!; try done.
  unfold createCSSRule; simpl. rewrite <- app_assoc. simpl.
  do 3 f_equal. unfold orElse, truthy.
  destruct (light p) as [l|]; [|done]. by case_decide.
Qed.

(** X14. An icon class, once returned for an id, is the answer for that
    id from then on: after any calls among which no registration carries
    another class for the id, [getOrCreateTaskIconClassName] returns the
    same class for every item of that id, and changes nothing. *)
Theorem iconClass_is_stable item item' (c1 : string) (cs : list Call) w :
  (getOrCreateTaskIconClassName item w).1 = Some c1 →
  ca_id item' = ca_id item →
  keepsIconClass (ca_id item) c1 cs →
  let w2 := calls cs (getOrCreateTaskIconClassName item w).2 in
  getOrCreateTaskIconClassName item' w2 = (Some c1, w2).
Proof.
  intros Hr Hid Hkeep w2.
  apply getOrCreateTaskIconClassName_known. rewrite Hid.
  rewrite <- (lastIconClass_keeps _ _ _ Hkeep). apply iconMap_calls.
  destruct (taskIdToIconClassNameMap (registry w) !! ca_id item)
    as [c|] eqn:Hm.
  - rewrite (getOrCreateTaskIconClassName_known _ _ _ Hm) in Hr |- *.
    simpl in *. congruence.
  - destruct (ca_iconPath item) as [p|] eqn:Hp.
    + pose proof (getOrCreateTaskIconClassName_fresh item w p Hm Hp) as Hf.
      destruct (getOrCreateTaskIconClassName item w) as [r w1].
      destruct Hf as [-> Hmap]. simpl in *. rewrite Hmap.
      injection Hr as <-. apply lookup_insert_eq.
    + unfold getOrCreateTaskIconClassName in Hr. by rewrite Hm, Hp in Hr.
Qed.

End IconProperties.

Section TaskProperties.
Context `{host : Host}.
Implicit Types (w : World) (this : Task).

(** X11. What [TaskRegistry] knows of a [Task] after [registerTask]: for a
    task with a non-empty title, [getCommandActionById] of its id gives the
    command action of the task, the one that goes to [MenuRegistry],
    whether the task is shown in the palette or not; for a task with an
    empty title nothing is filed and the answer is the one from before. *)
Theorem Task_registerTask_then_lookup this (show : option bool) w :
  getCommandActionById (task_id this) (Task_registerTask this show w).2
  = if decide (task_title this = EmptyString)
    then getCommandActionById (task_id this) w
    else Some (toCommandAction this).
Proof.
  unfold getCommandActionById.
  rewrite Task_registerTask_eq, actionMap_registerTask.
  unfold commandActionOf, truthy. simpl.
  case_decide.
  - by destruct (default true show).
  - apply lookup_insert_eq.
Qed.

(** X13. A [Task] made with a non-empty [iconClass] gets that class: after
    its [registerTask], [getOrCreateTaskIconClassName] for its command
    action returns the class of the options and changes nothing, so no
    class is generated and no CSS rule created for its icon. *)
Theorem Task_iconClass_is_returned this (show : option bool) (c0 : string) w :
  truthy (task__iconClass this) = Some c0 →
  getOrCreateTaskIconClassName (toCommandAction this)
    (Task_registerTask this show w).2
  = (Some c0, (Task_registerTask this show w).2).
Proof.
  intros Hc. apply getOrCreateTaskIconClassName_known.
  rewrite Task_registerTask_eq, iconMap_registerTask. simpl.
  rewrite Hc. apply lookup_insert_eq.
Qed.

End TaskProperties.

(** ** The further properties at work on the example host *)

Section FurtherExamples.
#[local] Existing Instance exampleHost.

(** Two ids registered and the first registration disposed of. *)
Definition exampleWorld : World :=
  calls [ CallRegisterTask (inl "a") None;
          CallRegisterTask (inl "b") None;
          CallDispose {| d_id := "a"; d_disposable := 0 |} ] initial.

(** Four calls: an id with a handler, the empty id, a reading of the list,
    and a task. *)
Definition registrations : list Call :=
  [ CallRegisterTask (inl "a") (Some "run");
    CallRegisterTask (inl EmptyString) (Some "run");
    CallGetTasks;
    CallRegisterTask (inr (exampleTask "b" None)) None ].

(** An icon with no light variant. *)
Definition darkOnlyIcon : IconPath :=
  {| dark := "/img/dark.svg"; light := None |}.

Definition exampleOptions (iconClass : option string) : ITaskOptions :=
  {| opts_id := "import"; opts_title := "Import wizard";
     opts_iconPath := exampleIcon; opts_description := None;
     opts_iconClass := iconClass |}.

Definition exampleTaskObject (iconClass : option string) : Task :=
  @Task_constructor exampleHost "run" (exampleOptions iconClass).

(** X1 for the second registration, whose id the first [dispose] has
    already dropped from the list. *)
Lemma dispose_of_absent_id_example :
  ("b" ∉ getTasks_ids exampleWorld)
  ∧ getTasks_ids (dispose {| d_id := "b"; d_disposable := 1 |} exampleWorld)
    = getTasks_ids exampleWorld
  ∧ CommandsRegistry_calls
      (dispose {| d_id := "b"; d_disposable := 1 |} exampleWorld)
    = CommandsRegistry_calls exampleWorld ++ [DisposeCommand 1].
Proof.
  assert ("b" ∉ getTasks_ids exampleWorld) as Hnot.
  { change (getTasks_ids exampleWorld) with ["a"].
    intros Hin%list_elem_of_singleton. discriminate Hin. }
  split; [exact Hnot|].
  exact (dispose_of_absent_id {| d_id := "b"; d_disposable := 1 |}
           exampleWorld Hnot).
Defined.

(** X4 for a task with an icon and an empty title. *)
Lemma registerTask_without_command_action_example :
  (∀ t, @inr string ITask untitledTask = inr t →
        itask_iconPath t = None ∨ truthy (itask_title t) = None)
  ∧ getCommandActionById "a" (registerTask (inr untitledTask) None initial).2
    = getCommandActionById "a" initial.
Proof.
  assert (∀ t, @inr string ITask untitledTask = inr t →
               itask_iconPath t = None ∨ truthy (itask_title t) = None)
    as Hno by (intros t [= <-]; by right).
  split; [exact Hno|].
  exact (registerTask_without_command_action (inr untitledTask) None initial
           "a" Hno).
Defined.

(** X7 for two registrations that return, one that the host rejects for
    its empty id, and a [getTasks] in between. *)
Lemma getTasks_in_registration_order_example :
  wf initial
  ∧ Forall (λ c, isDispose c = false) registrations
  ∧ getTasks_ids (calls_run registrations initial)
    = getTasks_ids initial ++ returnedIds registrations.
Proof.
  assert (wf initial) as Hwf by (unfold wf; simpl; lia).
  assert (Forall (λ c : Call, isDispose c = false) registrations) as Hcs
    by (repeat constructor).
  split; [exact Hwf|]. split; [exact Hcs|].
  exact (getTasks_in_registration_order registrations initial Hwf Hcs).
Defined.

(** X8: the list is read, then a third id is registered and the second
    registration disposed of. *)
Lemma getTasks_result_is_stable_example :
  wf exampleWorld
  ∧ let '(l, w1) := getTasks exampleWorld in
    load (heap (calls [ CallRegisterTask (inl "c") None;
                        CallDispose {| d_id := "b"; d_disposable := 1 |} ]
                  w1)) l
    = getTasks_ids exampleWorld.
Proof.
  assert (wf exampleWorld) as Hwf by (unfold wf; vm_compute; lia).
  split; [exact Hwf|].
  exact (getTasks_result_is_stable
           [ CallRegisterTask (inl "c") None;
             CallDispose {| d_id := "b"; d_disposable := 1 |} ]
           exampleWorld Hwf).
Defined.

(** X10 for an icon without a light variant, in the initial state. *)
Lemma getOrCreateTaskIconClassName_creates_example :
  taskIdToIconClassNameMap (registry initial)
    !! ca_id (exampleItem "a" (Some darkOnlyIcon)) = None
  ∧ ca_iconPath (exampleItem "a" (Some darkOnlyIcon)) = Some darkOnlyIcon
  ∧ let '(r, w1) :=
      getOrCreateTaskIconClassName (exampleItem "a" (Some darkOnlyIcon))
        initial in
    r = Some (nextId (ids initial)).1
    ∧ ids w1 = (nextId (ids initial)).2
    ∧ cssRules w1
      = cssRules initial
        ++ [ (".icon." +:+ (nextId (ids initial)).1,
              backgroundImage (dark darkOnlyIcon));
             (".vs-dark .icon." +:+ (nextId (ids initial)).1
                +:+ ", .hc-black .icon." +:+ (nextId (ids initial)).1,
              backgroundImage (dark darkOnlyIcon)) ]
    ∧ taskIdToIconClassNameMap (registry w1)
      = <[ "a" := (nextId (ids initial)).1 ]>
          (taskIdToIconClassNameMap (registry initial)).
Proof.
  split; [reflexivity|]. split; [reflexivity|].
  apply (getOrCreateTaskIconClassName_creates
           (exampleItem "a" (Some darkOnlyIcon)) darkOnlyIcon initial);
    reflexivity.
Defined.

(** X13 for a task made with the class [class-import]. *)
Lemma Task_iconClass_is_returned_example :
  truthy (task__iconClass (exampleTaskObject (Some "class-import")))
  = Some "class-import"
  ∧ getOrCreateTaskIconClassName
      (toCommandAction (exampleTaskObject (Some "class-import")))
      (Task_registerTask (exampleTaskObject (Some "class-import")) None
         initial).2
    = (Some "class-import",
       (Task_registerTask (exampleTaskObject (Some "class-import")) None
          initial).2).
Proof.
  split; [reflexivity|].
  apply (Task_iconClass_is_returned (exampleTaskObject (Some "class-import"))
           None "class-import" initial).
  reflexivity.
Defined.

(** The calls made after the class of [a] has been generated in the
    example of X14: another id is registered with a class of its own, the
    list is read, and a class is generated for a third id. *)
Definition laterCalls : list Call :=
  [ CallRegisterTask (inr (exampleTask "b" (Some "class-b"))) None;
    CallGetTasks;
    CallGetOrCreateTaskIconClassName (exampleItem "c" (Some exampleIcon)) ].

(** X14 for the first class that is generated. *)
Lemma iconClass_is_stable_example :
  (getOrCreateTaskIconClassName (exampleItem "a" (Some exampleIcon)) initial).1
  = Some "task-icon-1"
  ∧ ca_id (exampleItem "a" None) = ca_id (exampleItem "a" (Some exampleIcon))
  ∧ keepsIconClass "a" "task-icon-1" laterCalls
  ∧ getOrCreateTaskIconClassName (exampleItem "a" None)
      (calls laterCalls
         (getOrCreateTaskIconClassName (exampleItem "a" (Some exampleIcon))
            initial).2)
    = (Some "task-icon-1",
       calls laterCalls
         (getOrCreateTaskIconClassName (exampleItem "a" (Some exampleIcon))
            initial).2).
Proof.
  assert ((getOrCreateTaskIconClassName (exampleItem "a" (Some exampleIcon))
             initial).1 = Some "task-icon-1") as Hr
    by (vm_compute; reflexivity).
  assert (keepsIconClass "a" "task-icon-1" laterCalls) as Hkeep.
  { repeat (constructor; [intros c Hc; vm_compute in Hc; by simplify_eq|]).
    constructor. }
  split; [exact Hr|]. split; [reflexivity|]. split; [exact Hkeep|].
  exact (iconClass_is_stable (exampleItem "a" (Some exampleIcon))
           (exampleItem "a" None) "task-icon-1" laterCalls initial
           Hr eq_refl Hkeep).
Defined.

End FurtherExamples.
